(** * Workout tracker: the session state machine and the countdown timer

    A shallow embedding of [src/types/workout.ts], of the [useWorkout] hook
    (the session state machine) and of the [useTimer] hook (the countdown
    timer), with the properties of the specification stated over them.

    Modelling conventions.
    - The quantities of the data file (sets, seconds, repetitions) are
      integers and are modelled in [Z]; array cursors only ever start at 0 and
      grow by 1, so they are modelled in [nat] and converted to [Z] where the
      source compares them with [length - 1].
    - An array access [a[i]] that may be out of range is the list lookup
      [a !! i : option _]; [undefined] and [null] are [None].
    - A React state cell with its [setState(prev => ...)] updater is a pure
      function from the previous state to the next one, run once per call. *)

From Stdlib Require Import ZArith QArith Qround Lia Lqa.
From stdpp Require Import base list strings.

#[local] Open Scope Z_scope.

(** ** src/types/workout.ts *)

(** [type RepCount = number | { min: number; max: number }] *)
Inductive RepCount : Type :=
| RepNumber (n : Z)
| RepRange (min max : Z).

(** [type Duration = number | { min: number; max: number }] *)
Inductive Duration : Type :=
| DurNumber (n : Z)
| DurRange (min max : Z).

(** [interface BaseExercise] *)
Record BaseExercise : Type := mkBase {
  ex_id : string;
  ex_name : string;
  description : option string;
  tip : option string;
  sets : Z;
  restAfterSet : Z
}.

(** [type Exercise = TimerExercise | RepsExercise], discriminated by [type]. *)
Inductive Exercise : Type :=
| TimerExercise (base : BaseExercise) (duration : Duration)
| RepsExercise (base : BaseExercise) (reps : RepCount).

Definition base_of (e : Exercise) : BaseExercise :=
  match e with
  | TimerExercise b _ => b
  | RepsExercise b _ => b
  end.

Coercion base_of : Exercise >-> BaseExercise.

Definition isTimerExercise (exercise : Exercise) : bool :=
  match exercise with TimerExercise _ _ => true | RepsExercise _ _ => false end.

Definition isRepsExercise (exercise : Exercise) : bool :=
  match exercise with TimerExercise _ _ => false | RepsExercise _ _ => true end.

(** [Math.round]: the nearest integer, a tie going towards plus infinity. *)
Definition Math_round (x : Q) : Z := Qfloor (x + (1 # 2))%Q.

(** [getTimerDuration]: a number is returned as it is, a range gives
    [Math.round((duration.min + duration.max) / 2)]. *)
Definition getTimerDuration (duration : Duration) : Z :=
  match duration with
  | DurNumber n => n
  | DurRange min max => Math_round (inject_Z (min + max) / 2)%Q
  end.

(** Rounding as the specification uses it, [round(5.5) = 6]: [r] is the
    integer nearest to [x], a half rounding up. *)
Definition rounds_to (x : Q) (r : Z) : Prop :=
  (inject_Z r - (1 # 2) <= x /\ x < inject_Z r + (1 # 2))%Q.

Record WorkoutSection : Type := mkSection {
  section_id : string;
  section_name : string;
  exercises : list Exercise
}.

Record Workout : Type := mkWorkout {
  workout_id : string;
  workout_name : string;
  workout_description : option string;
  sections : list WorkoutSection
}.

(** [enum WorkoutPhase] *)
Inductive WorkoutPhase : Type := IDLE | EXERCISING | RESTING | COMPLETED.

#[global] Instance WorkoutPhase_eq_dec : EqDecision WorkoutPhase.
Proof. solve_decision. Defined.

(** [interface WorkoutState] *)
Record WorkoutState : Type := mkState {
  phase : WorkoutPhase;
  sectionIndex : nat;
  exerciseIndex : nat;
  currentSet : Z;
  restDuration : Z
}.

(** The input assumption of the specification: at least one section, every
    section with at least one exercise, every exercise with [sets >= 1]. *)
Definition exercise_ok (e : Exercise) : bool := 1 <=? sets e.

Definition section_ok (sec : WorkoutSection) : bool :=
  negb (Nat.eqb (length (exercises sec)) 0) && forallb exercise_ok (exercises sec).

Definition well_formed (w : Workout) : bool :=
  negb (Nat.eqb (length (sections w)) 0) && forallb section_ok (sections w).

(** ** The session state machine ([useWorkout]) *)

Module Session.

Definition INITIAL_STATE : WorkoutState :=
  {| phase := IDLE; sectionIndex := 0; exerciseIndex := 0;
     currentSet := 1; restDuration := 0 |}.

Section useWorkout.

Variable workout : Workout.

(** [workout.sections[s.sectionIndex]?.exercises[s.exerciseIndex] ?? null] *)
Definition getExercise (s : WorkoutState) : option Exercise :=
  match sections workout !! sectionIndex s with
  | Some section => exercises section !! exerciseIndex s
  | None => None
  end.

Definition currentExercise (state : WorkoutState) : option Exercise :=
  getExercise state.

Definition currentSectionName (state : WorkoutState) : string :=
  match sections workout !! sectionIndex state with
  | Some section => section_name section
  | None => ""%string
  end.

Definition currentTimerDuration (state : WorkoutState) : option Z :=
  match currentExercise state with
  | Some (TimerExercise _ duration) => Some (getTimerDuration duration)
  | _ => None
  end.

(** [sections.reduce((sum, section) => sum + section.exercises.length, 0)] *)
Definition count_exercises (secs : list WorkoutSection) : nat :=
  foldl (fun sum section => (sum + length (exercises section))%nat) 0%nat secs.

Definition totalExercises : nat := count_exercises (sections workout).

(** [sections.slice(0, state.sectionIndex).reduce(...) + state.exerciseIndex] *)
Definition completedExercises (state : WorkoutState) : nat :=
  (count_exercises (take (sectionIndex state) (sections workout))
   + exerciseIndex state)%nat.

(** [setState(prev => ({ ...prev, phase: EXERCISING }))] *)
Definition startWorkout (prev : WorkoutState) : WorkoutState :=
  {| phase := EXERCISING;
     sectionIndex := sectionIndex prev;
     exerciseIndex := exerciseIndex prev;
     currentSet := currentSet prev;
     restDuration := restDuration prev |}.

Definition completeSet (prev : WorkoutState) : WorkoutState :=
  match sections workout !! sectionIndex prev with
  | None => prev
  | Some section =>
    match (exercises section !! exerciseIndex prev : option Exercise) with
    | None => prev
    | Some exercise =>
      let restDuration' := restAfterSet exercise in
      if currentSet prev <? sets exercise then
        {| phase := RESTING;
           sectionIndex := sectionIndex prev;
           exerciseIndex := exerciseIndex prev;
           currentSet := currentSet prev + 1;
           restDuration := restDuration' |}
      else if Z.of_nat (exerciseIndex prev)
                <? Z.of_nat (length (exercises section)) - 1 then
        {| phase := RESTING;
           sectionIndex := sectionIndex prev;
           exerciseIndex := (exerciseIndex prev + 1)%nat;
           currentSet := 1;
           restDuration := restDuration' |}
      else if Z.of_nat (sectionIndex prev)
                <? Z.of_nat (length (sections workout)) - 1 then
        {| phase := RESTING;
           sectionIndex := (sectionIndex prev + 1)%nat;
           exerciseIndex := 0%nat;
           currentSet := 1;
           restDuration := restDuration' |}
      else
        {| phase := COMPLETED;
           sectionIndex := sectionIndex prev;
           exerciseIndex := exerciseIndex prev;
           currentSet := currentSet prev;
           restDuration := restDuration prev |}
    end
  end.

Definition afterRest (prev : WorkoutState) : WorkoutState :=
  if decide (phase prev <> RESTING) then prev
  else
    {| phase := EXERCISING;
       sectionIndex := sectionIndex prev;
       exerciseIndex := exerciseIndex prev;
       currentSet := currentSet prev;
       restDuration := restDuration prev |}.

(** [setState(INITIAL_STATE)] *)
Definition restartWorkout (prev : WorkoutState) : WorkoutState := INITIAL_STATE.

(** The four mutators the hook hands to the presentation layer. *)
Inductive Call : Type := StartWorkout | CompleteSet | AfterRest | RestartWorkout.

Definition call (c : Call) : WorkoutState -> WorkoutState :=
  match c with
  | StartWorkout => startWorkout
  | CompleteSet => completeSet
  | AfterRest => afterRest
  | RestartWorkout => restartWorkout
  end.

(** The state after a sequence of calls, the first call first. *)
Definition run (calls : list Call) (s : WorkoutState) : WorkoutState :=
  foldl (fun st c => call c st) s calls.

(** The states the hook can be in: the initial one, and any state one call
    away from such a state. *)
Inductive reachable : WorkoutState -> Prop :=
| reachable_init : reachable INITIAL_STATE
| reachable_call c s : reachable s -> reachable (call c s).

(** The cursor designates an exercise and the set counter is one of its
    sets. This is what every call preserves, whatever the phase. *)
Definition cursor_ok (s : WorkoutState) : Prop :=
  exists (sec : WorkoutSection) (ex : Exercise),
    sections workout !! sectionIndex s = Some sec
    /\ exercises sec !! exerciseIndex s = Some ex
    /\ 1 <= currentSet s <= sets ex.

End useWorkout.

End Session.

(** ** The countdown timer ([useTimer]) *)

Module Timer.

(** [type TimerStatus = 'idle' | 'running' | 'paused' | 'finished'] *)
Inductive TimerStatus : Type := idle | running | paused | finished.

#[global] Instance TimerStatus_eq_dec : EqDecision TimerStatus.
Proof. solve_decision. Defined.

(** One mounted instance of the hook: the three state cells, the ref holding
    the interval handle, and what the hook can observe of its environment:
    the intervals it created that the browser still fires, the next fresh
    handle, and how many times [onCompleteRef.current?.()] has run. *)
Record Instance : Type := mkInstance {
  timeRemaining : Z;
  totalTime : Z;
  status : TimerStatus;
  intervalRef : option nat;
  intervals : list nat;
  nextHandle : nat;
  completions : nat
}.

(** [totalTime > 0 ? (totalTime - timeRemaining) / totalTime : 0] *)
Definition progress (t : Instance) : Q :=
  if 0 <? totalTime t
  then (inject_Z (totalTime t - timeRemaining t) / inject_Z (totalTime t))%Q
  else 0%Q.

Section useTimer.

Variable initialDuration : Z.

Definition mount : Instance :=
  {| timeRemaining := initialDuration;
     totalTime := initialDuration;
     status := idle;
     intervalRef := None;
     intervals := [];
     nextHandle := 0;
     completions := 0 |}.

(** [clearInterval(h)] on the browser side. *)
Definition clearInterval (h : nat) (live : list nat) : list nat :=
  filter (fun i => i <> h) live.

Definition clearIntervalSafe (t : Instance) : Instance :=
  match intervalRef t with
  | Some h =>
    {| timeRemaining := timeRemaining t;
       totalTime := totalTime t;
       status := status t;
       intervalRef := None;
       intervals := clearInterval h (intervals t);
       nextHandle := nextHandle t;
       completions := completions t |}
  | None => t
  end.

(** The callback both [start] and [resume] hand to [setInterval]. *)
Definition tick (t : Instance) : Instance :=
  if timeRemaining t <=? 1 then
    let t' := clearIntervalSafe t in
    {| timeRemaining := 0;
       totalTime := totalTime t';
       status := finished;
       intervalRef := intervalRef t';
       intervals := intervals t';
       nextHandle := nextHandle t';
       completions := S (completions t') |}
  else
    {| timeRemaining := timeRemaining t - 1;
       totalTime := totalTime t;
       status := status t;
       intervalRef := intervalRef t;
       intervals := intervals t;
       nextHandle := nextHandle t;
       completions := completions t |}.

Definition start (duration : option Z) (t : Instance) : Instance :=
  let t' := clearIntervalSafe t in
  let d := default initialDuration duration in
  {| timeRemaining := d;
     totalTime := d;
     status := running;
     intervalRef := Some (nextHandle t');
     intervals := nextHandle t' :: intervals t';
     nextHandle := S (nextHandle t');
     completions := completions t' |}.

Definition pause (t : Instance) : Instance :=
  let t' := clearIntervalSafe t in
  {| timeRemaining := timeRemaining t';
     totalTime := totalTime t';
     status := paused;
     intervalRef := intervalRef t';
     intervals := intervals t';
     nextHandle := nextHandle t';
     completions := completions t' |}.

Definition resume (t : Instance) : Instance :=
  if decide (status t <> paused) then t
  else
    {| timeRemaining := timeRemaining t;
       totalTime := totalTime t;
       status := running;
       intervalRef := Some (nextHandle t);
       intervals := nextHandle t :: intervals t;
       nextHandle := S (nextHandle t);
       completions := completions t |}.

Definition reset (t : Instance) : Instance :=
  let t' := clearIntervalSafe t in
  {| timeRemaining := initialDuration;
     totalTime := initialDuration;
     status := idle;
     intervalRef := intervalRef t';
     intervals := intervals t';
     nextHandle := nextHandle t';
     completions := completions t' |}.

(** What can happen to an instance: a call of one of the four controls, or
    the browser firing the interval with handle [h]; a handle that is not
    live does not fire. *)
Inductive Event : Type :=
| Start (duration : option Z)
| Pause
| Resume
| Reset
| Fire (h : nat).

Definition step (e : Event) (t : Instance) : Instance :=
  match e with
  | Start duration => start duration t
  | Pause => pause t
  | Resume => resume t
  | Reset => reset t
  | Fire h => if decide (h ∈ intervals t) then tick t else t
  end.

Definition steps (es : list Event) (t : Instance) : Instance :=
  foldl (fun st e => step e st) t es.

(** One second of wall-clock time: every interval that was live at the start
    of the second fires, unless an earlier one cleared it. *)
Definition second (t : Instance) : Instance :=
  foldl (fun st h => step (Fire h) st) t (intervals t).

Fixpoint elapse (n : nat) (t : Instance) : Instance :=
  match n with
  | O => t
  | S n' => elapse n' (second t)
  end.

(** The durations the specification allows a caller to pass to [start]. *)
Definition event_ok (e : Event) : Prop :=
  match e with
  | Start (Some d) => 1 <= d
  | _ => True
  end.

Inductive reachable : Instance -> Prop :=
| reachable_mount : reachable mount
| reachable_step e t : reachable t -> event_ok e -> reachable (step e t).

(** The discipline of the presentation layer, which offers the pause
    control only while the timer is running. *)
Definition pause_only_when_running (e : Event) (t : Instance) : Prop :=
  e = Pause -> status t = running.

Inductive reachable_ui : Instance -> Prop :=
| reachable_ui_mount : reachable_ui mount
| reachable_ui_step e t :
    reachable_ui t -> event_ok e -> pause_only_when_running e t ->
    reachable_ui (step e t).

End useTimer.

(** At most one interval is live, the one the ref holds, and only a running
    timer holds one. *)
Definition single_source (t : Instance) : Prop :=
  intervals t = match intervalRef t with Some h => [h] | None => [] end
  /\ (forall h : nat, intervalRef t = Some h -> status t = running).

End Timer.

(** ** Concrete workouts used to exercise the definitions *)

Module Samples.

Definition base (i : string) (n r : Z) : BaseExercise :=
  {| ex_id := i; ex_name := i; description := None; tip := None;
     sets := n; restAfterSet := r |}.

(** The end-to-end scenario of the specification: one section with one timed
    exercise, [sets = 2], [duration = 10], [restAfterSet = 5]. *)
Definition plank_workout : Workout :=
  {| workout_id := "plank"; workout_name := "Plank";
     workout_description := None;
     sections :=
       [ {| section_id := "workout"; section_name := "Workout";
            exercises := [ TimerExercise (base "plank" 2 5) (DurNumber 10) ] |} ] |}.

(** Two sections; the last exercise asks for no rest after its sets. *)
Definition pullup_workout : Workout :=
  {| workout_id := "pullup-training"; workout_name := "Pull-up Training";
     workout_description := Some "Warm up, then pull"%string;
     sections :=
       [ {| section_id := "warmup"; section_name := "Warm-up";
            exercises :=
              [ TimerExercise (base "hang" 1 30) (DurRange 40 60) ] |};
         {| section_id := "workout"; section_name := "Workout";
            exercises :=
              [ RepsExercise (base "pullups" 2 90) (RepRange 6 8);
                RepsExercise (base "negatives" 2 0) (RepNumber 5) ] |} ] |}.

End Samples.

(** ** Workout statistics ([getWorkoutStats], WorkoutSelector.tsx) *)

Module Selector.

Record WorkoutStats : Type := mkStats {
  totalExercises : nat;
  totalSets : Z;
  sectionNames : list string
}.

Definition getWorkoutStats (workout : Workout) : WorkoutStats :=
  {| totalExercises :=
       foldl (fun sum section => (sum + length (exercises section))%nat)
             0%nat (sections workout);
     totalSets :=
       foldl (fun sum section =>
                sum + foldl (fun s (ex : Exercise) => s + sets ex) 0
                            (exercises section))
             0 (sections workout);
     sectionNames := map section_name (sections workout) |}.

End Selector.

(** ** The runner screen (WorkoutRunner.tsx) *)

Module Runner.

(** The alternatives of the main area; each [cond && <X />] of the JSX
    contributes its component when the condition holds. [ExerciseHeaderOnly]
    is the exercising block whose inner ternary ends in [null]. *)
Inductive Content : Type :=
| ReadyScreen (firstExercise : option Exercise) (sectionName : string)
| TimerExerciseUI (duration : Z)
| RepsExerciseUI (exercise : Exercise)
| ExerciseHeaderOnly
| RestPeriodUI (duration : Z) (nextExercise : option Exercise)
               (nextSet totalSets : Z)
| CompletionScreen.

Section WorkoutRunner.

Variable workout : Workout.

Definition mainContent (state : WorkoutState) : list Content :=
  (if decide (phase state = IDLE)
   then [ReadyScreen (Session.currentExercise workout state)
                     (Session.currentSectionName workout state)]
   else [])
  ++ (if decide (phase state = EXERCISING)
      then match Session.currentExercise workout state with
           | Some currentExercise =>
             [match Session.currentTimerDuration workout state with
              | Some duration => TimerExerciseUI duration
              | None =>
                if isRepsExercise currentExercise
                then RepsExerciseUI currentExercise
                else ExerciseHeaderOnly
              end]
           | None => []
           end
      else [])
  ++ (if decide (phase state = RESTING)
      then [RestPeriodUI (restDuration state)
                         (Session.currentExercise workout state)
                         (currentSet state)
                         (match Session.currentExercise workout state with
                          | Some ex => sets ex
                          | None => 1
                          end)]
      else [])
  ++ (if decide (phase state = COMPLETED) then [CompletionScreen] else []).

End WorkoutRunner.

(** The set counter of [ExerciseHeader]: one bar per set, coloured by its
    position relative to the current set. *)
Inductive Bar : Type := CompletedSet | CurrentSetBar | UpcomingSet.

Definition setBars (exercise : Exercise) (currentSet : Z) : list Bar :=
  map (fun i : nat =>
         if Z.of_nat i <? currentSet - 1 then CompletedSet
         else if Z.of_nat i =? currentSet - 1 then CurrentSetBar
         else UpcomingSet)
      (seq 0 (Z.to_nat (sets exercise))).

(** One round of a workout driven to its end: the set is completed, then
    the rest is over. *)
Definition round (workout : Workout) (s : WorkoutState) : WorkoutState :=
  Session.afterRest (Session.completeSet workout s).

Definition sets_of (ex : Exercise) : Z := sets ex.

(** [section.exercises.reduce((sum, ex) => sum + ex.sets, 0)], the total of
    [SectionCard]. *)
Definition section_sets (sec : WorkoutSection) : Z :=
  foldl (fun s ex => s + sets_of ex) 0 (exercises sec).

(** The number of sets completed so far at a cursor position: the sets of
    the sections and exercises before it, and the sets before the current
    one. *)
Definition setsDone (workout : Workout) (s : WorkoutState) : Z :=
  foldl (fun sum section => sum + section_sets section) 0
        (take (sectionIndex s) (sections workout))
  + match sections workout !! sectionIndex s with
    | Some section =>
      foldl (fun a ex => a + sets_of ex) 0
            (take (exerciseIndex s) (exercises section))
    | None => 0
    end
  + (currentSet s - 1).

End Runner.

(** ** Teardown of the timer hook *)

Module Lifecycle.


End Lifecycle.

(** ** Screen routing (App.tsx) *)

Module App.

(** [type AppView], discriminated by [screen]. *)
Inductive AppView : Type :=
| selector
| plan (workout : Workout)
| runner (workout : Workout).

Definition showPlan (workout : Workout) (view : AppView) : AppView :=
  plan workout.

Definition showRunner (view : AppView) : AppView :=
  match view with
  | plan workout => runner workout
  | _ => view
  end.

Definition showSelector (view : AppView) : AppView := selector.

(** The handlers the rendered screen wires up: the selector offers
    [onSelect] for each workout of the list, the plan [onStart] and
    [onBack], the runner [onExit]. A handler of a screen that is not shown
    cannot be invoked. *)
Inductive Handler : Type :=
| onSelect (i : nat)
| onStart
| onBack
| onExit.

Section Routing.

Variable workouts : list Workout.

Definition handle (h : Handler) (view : AppView) : AppView :=
  match view, h with
  | selector, onSelect i =>
    match workouts !! i with
    | Some workout => showPlan workout view
    | None => view
    end
  | plan _, onStart => showRunner view
  | plan _, onBack => showSelector view
  | runner workout, onExit => showPlan workout view
  | _, _ => view
  end.

Definition navigate (hs : list Handler) (view : AppView) : AppView :=
  foldl (fun v h => handle h v) view hs.

Definition shown (view : AppView) : option Workout :=
  match view with
  | selector => None
  | plan workout => Some workout
  | runner workout => Some workout
  end.

End Routing.

End App.

(** * Properties of the session state machine *)

Module SessionProps.

Import Session.

Section Facts.

Variable workout : Workout.

Lemma count_exercises_acc (secs : list WorkoutSection) (a : nat) :
  foldl (fun sum section => (sum + length (exercises section))%nat) a secs
  = (a + count_exercises secs)%nat.
Proof.
  unfold count_exercises. revert a.
  induction secs as [|sec secs IH]; intros a; simpl.
  - lia.
  - rewrite IH, (IH (length (exercises sec))). lia.
Qed.

Lemma count_exercises_snoc (secs : list WorkoutSection) (sec : WorkoutSection) :
  count_exercises (secs ++ [sec])
  = (count_exercises secs + length (exercises sec))%nat.
Proof.
  unfold count_exercises at 1. rewrite foldl_app. simpl.
  fold (count_exercises secs). reflexivity.
Qed.

Lemma well_formed_sections :
  well_formed workout = true -> (0 < length (sections workout))%nat.
Proof.
  unfold well_formed. intros H. apply andb_prop in H as [H _].
  destruct (sections workout); simpl in *; [discriminate | lia].
Qed.

Lemma well_formed_section (i : nat) (sec : WorkoutSection) :
  well_formed workout = true ->
  sections workout !! i = Some sec ->
  (0 < length (exercises sec))%nat
  /\ forall (j : nat) (ex : Exercise), exercises sec !! j = Some ex -> 1 <= sets ex.
Proof.
  unfold well_formed. intros H Hi. apply andb_prop in H as [_ H].
  rewrite forallb_forall in H.
  assert (Hsec : section_ok sec = true).
  { apply H, list_elem_of_In, (list_elem_of_lookup_2 _ i), Hi. }
  unfold section_ok in Hsec. apply andb_prop in Hsec as [Hne Hall]. split.
  - destruct (exercises sec); simpl in *; [discriminate | lia].
  - intros j ex Hj. rewrite forallb_forall in Hall.
    assert (Hex : exercise_ok ex = true).
    { apply Hall, list_elem_of_In, (list_elem_of_lookup_2 _ j), Hj. }
    unfold exercise_ok in Hex. lia.
Qed.

Lemma cursor_ok_initial :
  well_formed workout = true -> cursor_ok workout INITIAL_STATE.
Proof.
  intros Hwf. pose proof (well_formed_sections Hwf) as Hlen.
  destruct (sections workout) as [|sec secs] eqn:Hsecs; [simpl in Hlen; lia|].
  assert (Hsec : sections workout !! 0%nat = Some sec) by (rewrite Hsecs; reflexivity).
  destruct (well_formed_section 0 sec Hwf Hsec) as [Hne Hsets].
  destruct (exercises sec) as [|ex exs] eqn:Hexs; [simpl in Hne; lia|].
  exists sec, ex. simpl. split; [exact Hsec|].
  split; [rewrite Hexs; reflexivity|].
  split; [lia|]. apply (Hsets 0%nat). reflexivity.
Qed.

Lemma cursor_ok_completeSet (s : WorkoutState) :
  well_formed workout = true ->
  cursor_ok workout s -> cursor_ok workout (completeSet workout s).
Proof.
  intros Hwf (sec & ex & Hsec & Hex & Hset).
  unfold completeSet. rewrite Hsec, Hex. cbv zeta.
  destruct (currentSet s <? sets ex) eqn:H1.
  { exists sec, ex. simpl. repeat split; try assumption; lia. }
  destruct (Z.of_nat (exerciseIndex s) <? Z.of_nat (length (exercises sec)) - 1) eqn:H2.
  { destruct (lookup_lt_is_Some_2 (exercises sec) (exerciseIndex s + 1)) as [ex' Hex'];
      [lia|].
    exists sec, ex'. simpl. repeat split; try assumption; try lia.
    eapply well_formed_section; eauto. }
  destruct (Z.of_nat (sectionIndex s) <? Z.of_nat (length (sections workout)) - 1) eqn:H3.
  { destruct (lookup_lt_is_Some_2 (sections workout) (sectionIndex s + 1)) as [sec' Hsec'];
      [lia|].
    destruct (well_formed_section _ _ Hwf Hsec') as [Hne Hsets].
    destruct (lookup_lt_is_Some_2 (exercises sec') 0) as [ex' Hex']; [lia|].
    exists sec', ex'. simpl. repeat split; try assumption; try lia.
    eapply Hsets; eauto. }
  exists sec, ex. simpl. repeat split; try assumption; lia.
Qed.

Lemma cursor_ok_call (c : Call) (s : WorkoutState) :
  well_formed workout = true ->
  cursor_ok workout s -> cursor_ok workout (call workout c s).
Proof.
  intros Hwf Hs. destruct c; simpl.
  - exact Hs.
  - apply cursor_ok_completeSet; assumption.
  - unfold afterRest. destruct (decide _); exact Hs.
  - apply cursor_ok_initial, Hwf.
Qed.

Lemma cursor_ok_reachable (s : WorkoutState) :
  well_formed workout = true -> reachable workout s -> cursor_ok workout s.
Proof.
  intros Hwf Hr. induction Hr.
  - apply cursor_ok_initial, Hwf.
  - apply cursor_ok_call; assumption.
Qed.

Lemma reachable_run (calls : list Call) (s : WorkoutState) :
  reachable workout s -> reachable workout (run workout calls s).
Proof.
  revert s. induction calls as [|c calls IH]; intros s Hs; simpl.
  - exact Hs.
  - apply IH. constructor. exact Hs.
Qed.

End Facts.

(** When a call of [completeSet] ends the workout, the progress counter is
    one short of the number of exercises: the cursor stays on the last
    exercise, which [completedExercises] does not count. *)
Lemma completedExercises_at_completion (workout : Workout) (s : WorkoutState) :
  cursor_ok workout s ->
  phase (completeSet workout s) = COMPLETED ->
  phase s <> COMPLETED ->
  (completedExercises workout (completeSet workout s) + 1)%nat
  = totalExercises workout.
Proof.
  intros (sec & ex & Hsec & Hex & Hset) Hdone Hnot.
  pose proof (lookup_lt_Some _ _ _ Hsec) as Hi.
  pose proof (lookup_lt_Some _ _ _ Hex) as Hj.
  revert Hdone. unfold completeSet. rewrite Hsec, Hex. cbv zeta.
  destruct (currentSet s <? sets ex); [discriminate|].
  destruct (Z.of_nat (exerciseIndex s) <? Z.of_nat (length (exercises sec)) - 1) eqn:H2;
    [discriminate|].
  destruct (Z.of_nat (sectionIndex s) <? Z.of_nat (length (sections workout)) - 1) eqn:H3;
    [discriminate|].
  intros _. unfold completedExercises, totalExercises. simpl.
  assert (Hlast : S (sectionIndex s) = length (sections workout)) by lia.
  rewrite <- (take_ge (sections workout) (S (sectionIndex s))) at 2 by lia.
  rewrite (take_S_r _ _ _ Hsec), count_exercises_snoc. lia.
Qed.

(** C1. Called while exercising with the cursor on an exercise, completeSet
    takes exactly one of four branches, tried in this order: more sets left
    (only the set counter grows), more exercises left in the section (next
    exercise, set 1), more sections left (next section, exercise 0, set 1),
    each of them entering the rest phase with the rest of the exercise just
    done; otherwise the phase becomes completed and nothing else changes.
    It holds for every workout, the well-formed ones among them. *)
Theorem completeSet_cascade
    (workout : Workout) (s : WorkoutState) (sec : WorkoutSection) (ex : Exercise) :
  phase s = EXERCISING ->
  sections workout !! sectionIndex s = Some sec ->
  exercises sec !! exerciseIndex s = Some ex ->
  let more_sets := currentSet s < sets ex in
  let more_exercises := (exerciseIndex s + 1 < length (exercises sec))%nat in
  let more_sections := (sectionIndex s + 1 < length (sections workout))%nat in
  (more_sets ->
     completeSet workout s
     = {| phase := RESTING; sectionIndex := sectionIndex s;
          exerciseIndex := exerciseIndex s; currentSet := currentSet s + 1;
          restDuration := restAfterSet ex |})
  /\ (~ more_sets -> more_exercises ->
     completeSet workout s
     = {| phase := RESTING; sectionIndex := sectionIndex s;
          exerciseIndex := (exerciseIndex s + 1)%nat; currentSet := 1;
          restDuration := restAfterSet ex |})
  /\ (~ more_sets -> ~ more_exercises -> more_sections ->
     completeSet workout s
     = {| phase := RESTING; sectionIndex := (sectionIndex s + 1)%nat;
          exerciseIndex := 0%nat; currentSet := 1;
          restDuration := restAfterSet ex |})
  /\ (~ more_sets -> ~ more_exercises -> ~ more_sections ->
     completeSet workout s
     = {| phase := COMPLETED; sectionIndex := sectionIndex s;
          exerciseIndex := exerciseIndex s; currentSet := currentSet s;
          restDuration := restDuration s |}).
Proof.
  intros _ Hsec Hex more_sets more_exercises more_sections.
  subst more_sets more_exercises more_sections.
  unfold completeSet. rewrite Hsec, Hex. cbv zeta.
  destruct (Z.ltb_spec (currentSet s) (sets ex));
    destruct (Z.ltb_spec (Z.of_nat (exerciseIndex s))
                         (Z.of_nat (length (exercises sec)) - 1));
    destruct (Z.ltb_spec (Z.of_nat (sectionIndex s))
                         (Z.of_nat (length (sections workout)) - 1));
    repeat split; intros; try reflexivity; lia.
Qed.

(** The section step of the cascade, on the warm-up of the sample workout. *)
Lemma completeSet_cascade_witness :
  let s := {| phase := EXERCISING; sectionIndex := 0; exerciseIndex := 0;
              currentSet := 1; restDuration := 0 |} in
  phase s = EXERCISING
  /\ completeSet Samples.pullup_workout s
     = {| phase := RESTING; sectionIndex := 1; exerciseIndex := 0;
          currentSet := 1; restDuration := 30 |}.
Proof.
  intros s. split; [reflexivity|].
  destruct (completeSet_cascade Samples.pullup_workout s _ _
              eq_refl eq_refl eq_refl) as (_ & _ & H3 & _).
  apply H3; simpl; lia.
Defined.

(** C7. For a well-formed workout, in every state reachable by calls of the
    four mutators: unless the workout is completed, the section cursor is
    inside the section list and the exercise cursor inside that section; the
    set counter is at least 1; while exercising it is at most the number of
    sets of the current exercise. *)
Theorem reachable_invariant (workout : Workout) (s : WorkoutState) :
  well_formed workout = true ->
  reachable workout s ->
  (phase s <> COMPLETED ->
     (sectionIndex s < length (sections workout))%nat
     /\ exists sec : WorkoutSection,
          sections workout !! sectionIndex s = Some sec
          /\ (exerciseIndex s < length (exercises sec))%nat)
  /\ 1 <= currentSet s
  /\ (phase s = EXERCISING ->
      exists ex : Exercise,
        getExercise workout s = Some ex /\ currentSet s <= sets ex).
Proof.
  intros Hwf Hr.
  destruct (cursor_ok_reachable workout s Hwf Hr) as (sec & ex & Hsec & Hex & Hset).
  split; [|split].
  - intros _. split.
    + eapply lookup_lt_Some, Hsec.
    + exists sec. split; [exact Hsec|]. eapply lookup_lt_Some, Hex.
  - lia.
  - intros _. exists ex. unfold getExercise. rewrite Hsec. split; [exact Hex|lia].
Qed.

Lemma reachable_invariant_witness :
  let w := Samples.pullup_workout in
  let s := run w [StartWorkout; CompleteSet; AfterRest; CompleteSet; AfterRest]
               INITIAL_STATE in
  well_formed w = true
  /\ s = {| phase := EXERCISING; sectionIndex := 1; exerciseIndex := 0;
            currentSet := 2; restDuration := 90 |}
  /\ 1 <= currentSet s
  /\ (phase s = EXERCISING ->
      exists ex : Exercise, getExercise w s = Some ex /\ currentSet s <= sets ex).
Proof.
  intros w s. split; [reflexivity|]. split; [reflexivity|].
  apply (reachable_invariant w s eq_refl).
  apply (reachable_run w _ _ (reachable_init w)).
Defined.

(** C2. The end-to-end scenario of the specification, on the one-exercise
    workout: after the call of completeSet that completes the workout the
    progress counter completedExercises is 0, while the workout has 1
    exercise; the claim asks for the two to be equal at that moment. *)
Theorem completedExercises_plank :
  let w := Samples.plank_workout in
  let s := run w [StartWorkout; CompleteSet; AfterRest] INITIAL_STATE in
  well_formed w = true
  /\ phase s = EXERCISING
  /\ phase (completeSet w s) = COMPLETED
  /\ totalExercises w = 1%nat
  /\ completedExercises w (completeSet w s) = 0%nat.
Proof. repeat split. Qed.

(** C3. completeSet does not look at the phase. Called on the freshly
    created, idle session of the sample workout it enters the rest phase and
    moves on to set 2; called again while resting it completes the workout.
    The claim asks for both calls to leave the state as it is. *)
Theorem completeSet_outside_exercising :
  let w := Samples.plank_workout in
  let resting := {| phase := RESTING; sectionIndex := 0; exerciseIndex := 0;
                    currentSet := 2; restDuration := 5 |} in
  phase INITIAL_STATE = IDLE
  /\ completeSet w INITIAL_STATE = resting
  /\ completeSet w INITIAL_STATE <> INITIAL_STATE
  /\ completeSet w resting
     = {| phase := COMPLETED; sectionIndex := 0; exerciseIndex := 0;
          currentSet := 2; restDuration := 5 |}
  /\ completeSet w resting <> resting.
Proof. repeat split; discriminate. Qed.

(** C4. startWorkout does not look at the phase either. On the resting
    state and on the completed state of the sample workout, both reached by
    calls of the mutators, it sets the phase to exercising; the claim asks
    for the state to be left as it is. *)
Theorem startWorkout_outside_idle :
  let w := Samples.plank_workout in
  let resting := run w [StartWorkout; CompleteSet] INITIAL_STATE in
  let completed := run w [StartWorkout; CompleteSet; AfterRest; CompleteSet]
                       INITIAL_STATE in
  phase resting = RESTING
  /\ phase (startWorkout resting) = EXERCISING
  /\ startWorkout resting <> resting
  /\ phase completed = COMPLETED
  /\ phase (startWorkout completed) = EXERCISING
  /\ startWorkout completed <> completed.
Proof. repeat split; discriminate. Qed.

(** What startWorkout does do: the phase becomes exercising and nothing
    else changes, so from the idle initial state the cursor stays on the
    first exercise. *)
Lemma startWorkout_from_idle :
  startWorkout INITIAL_STATE
  = {| phase := EXERCISING; sectionIndex := 0; exerciseIndex := 0;
       currentSet := 1; restDuration := 0 |}.
Proof. reflexivity. Qed.

(** C9, as stated, fails: in the sample workout the last exercise has
    restAfterSet = 0, and a reachable exercising state whose restDuration is
    90 is taken by completeSet, not by restartWorkout, to a state whose
    restDuration is 0. *)
Lemma restDuration_zero_by_completeSet :
  let w := Samples.pullup_workout in
  let s := run w [StartWorkout; CompleteSet; AfterRest; CompleteSet; AfterRest;
                  CompleteSet; AfterRest] INITIAL_STATE in
  well_formed w = true
  /\ reachable w s
  /\ ~ (forall c : Call,
          restDuration s <> 0 -> restDuration (call w c s) = 0 ->
          c = RestartWorkout).
Proof.
  intros w s. split; [reflexivity|]. split.
  - apply (reachable_run w _ _ (reachable_init w)).
  - intros H. specialize (H CompleteSet). discriminate H.
    + vm_compute. discriminate.
    + reflexivity.
Qed.

(** C9, amended. afterRest changes the phase only, and only from resting
    to exercising; so restDuration keeps the value the last completeSet gave
    it when the session is exercising again. startWorkout leaves it alone
    as well. A non-zero restDuration becomes 0 only by restartWorkout, or by
    a completeSet on an exercise whose restAfterSet is 0. *)
Theorem afterRest_changes_phase_only (workout : Workout) (s : WorkoutState) :
  (sectionIndex (afterRest s) = sectionIndex s
   /\ exerciseIndex (afterRest s) = exerciseIndex s
   /\ currentSet (afterRest s) = currentSet s
   /\ restDuration (afterRest s) = restDuration s)
  /\ (phase s = RESTING -> phase (afterRest s) = EXERCISING)
  /\ (phase s <> RESTING -> afterRest s = s)
  /\ restDuration (afterRest (completeSet workout s))
     = restDuration (completeSet workout s)
  /\ restDuration (startWorkout s) = restDuration s
  /\ restDuration (restartWorkout s) = 0
  /\ (forall c : Call,
        restDuration s <> 0 -> restDuration (call workout c s) = 0 ->
        c = RestartWorkout
        \/ (c = CompleteSet
            /\ exists ex : Exercise,
                 getExercise workout s = Some ex /\ restAfterSet ex = 0)).
Proof.
  assert (Hframe : forall t : WorkoutState,
             sectionIndex (afterRest t) = sectionIndex t
             /\ exerciseIndex (afterRest t) = exerciseIndex t
             /\ currentSet (afterRest t) = currentSet t
             /\ restDuration (afterRest t) = restDuration t).
  { intros t. unfold afterRest. destruct (decide _); repeat split. }
  split; [apply Hframe|].
  split. { intros H. unfold afterRest. destruct (decide _); [congruence|reflexivity]. }
  split. { intros H. unfold afterRest. destruct (decide _); [reflexivity|contradiction]. }
  split; [apply Hframe|].
  split; [reflexivity|]. split; [reflexivity|].
  intros c Hnz Hz. destruct c; simpl in Hz.
  - contradiction.
  - right. split; [reflexivity|].
    revert Hz. unfold completeSet, getExercise.
    destruct (sections workout !! sectionIndex s) as [sec|]; [|contradiction].
    destruct (exercises sec !! exerciseIndex s) as [ex|]; [|contradiction].
    cbv zeta.
    destruct (currentSet s <? sets ex);
      [simpl; intros Hz; exists ex; split; [reflexivity|exact Hz]|].
    destruct (Z.of_nat (exerciseIndex s) <? Z.of_nat (length (exercises sec)) - 1);
      [simpl; intros Hz; exists ex; split; [reflexivity|exact Hz]|].
    destruct (Z.of_nat (sectionIndex s) <? Z.of_nat (length (sections workout)) - 1);
      [simpl; intros Hz; exists ex; split; [reflexivity|exact Hz]|].
    simpl. contradiction.
  - destruct (Hframe s) as (_ & _ & _ & Hrd). congruence.
  - left. reflexivity.
Qed.

(** On the sample workout: the rest of 90 seconds set by completeSet is
    still there after afterRest, and the next completeSet, on the exercise
    without rest, is what brings it to 0. *)
Lemma afterRest_changes_phase_only_witness :
  let w := Samples.pullup_workout in
  let s := run w [StartWorkout; CompleteSet; AfterRest; CompleteSet; AfterRest;
                  CompleteSet] INITIAL_STATE in
  phase s = RESTING
  /\ restDuration s = 90
  /\ phase (afterRest s) = EXERCISING
  /\ restDuration (afterRest s) = 90
  /\ restDuration (call w CompleteSet (afterRest s)) = 0
  /\ exists ex : Exercise,
       getExercise w (afterRest s) = Some ex /\ restAfterSet ex = 0.
Proof.
  intros w s.
  destruct (afterRest_changes_phase_only w s)
    as ((_ & _ & _ & Hrd) & Hph & _ & _ & _ & _ & _).
  destruct (afterRest_changes_phase_only w (afterRest s))
    as (_ & _ & _ & _ & _ & _ & Hzero).
  split; [reflexivity|]. split; [reflexivity|].
  split; [apply Hph; reflexivity|].
  split; [rewrite Hrd; reflexivity|].
  split; [reflexivity|].
  destruct (Hzero CompleteSet) as [Hc | [_ Hex]].
  - rewrite Hrd. vm_compute. discriminate.
  - reflexivity.
  - discriminate Hc.
  - exact Hex.
Defined.

End SessionProps.

(** * Properties of the data-model helpers *)

Module WorkoutProps.

Lemma Math_round_rounds_to (x : Q) : rounds_to x (Math_round x).
Proof.
  unfold rounds_to, Math_round.
  pose proof (Qfloor_le (x + (1 # 2))) as Hle.
  pose proof (Qlt_floor (x + (1 # 2))) as Hlt.
  rewrite inject_Z_plus in Hlt. change (inject_Z 1) with 1%Q in Hlt.
  split; lra.
Qed.

Lemma rounds_to_unique (x : Q) (r r' : Z) :
  rounds_to x r -> rounds_to x r' -> r = r'.
Proof.
  unfold rounds_to. intros [H1 H2] [H3 H4].
  assert (Ha : (inject_Z r < inject_Z r' + 1)%Q) by lra.
  assert (Hb : (inject_Z r' < inject_Z r + 1)%Q) by lra.
  change 1%Q with (inject_Z 1) in Ha, Hb.
  rewrite <- inject_Z_plus, <- Zlt_Qlt in Ha, Hb. lia.
Qed.

(** On integers the midpoint rounding is an integer division. *)
Lemma getTimerDuration_range (min max : Z) :
  getTimerDuration (DurRange min max) = (min + max + 1) / 2.
Proof.
  apply (rounds_to_unique (inject_Z (min + max) / 2)).
  - apply Math_round_rounds_to.
  - unfold rounds_to.
    pose proof (Z.div_mod (min + max + 1) 2 ltac:(lia)) as Hdm.
    pose proof (Z.mod_pos_bound (min + max + 1) 2 ltac:(lia)) as Hm.
    set (q := (min + max + 1) / 2) in *. set (m := (min + max + 1) mod 2) in *.
    assert (HQ : (inject_Z (min + max + 1) == inject_Z (2 * q + m))%Q)
      by (rewrite Hdm at 1; reflexivity).
    rewrite !inject_Z_plus, inject_Z_mult in HQ. rewrite inject_Z_plus.
    change (inject_Z 2) with 2%Q in HQ. change (inject_Z 1) with 1%Q in HQ.
    assert (H0 : (0 <= inject_Z m)%Q)
      by (change 0%Q with (inject_Z 0); rewrite <- Zle_Qle; lia).
    assert (H1 : (inject_Z m <= 1)%Q)
      by (change 1%Q with (inject_Z 1); rewrite <- Zle_Qle; lia).
    unfold Qdiv. change (/ 2)%Q with (1 # 2)%Q. split; lra.
Qed.

(** C8. getTimerDuration returns a fixed duration as it is and resolves a
    range to the rounding of its midpoint, a half rounding up; the range
    40-60 gives 50 and the range 5-6 gives 6; and currentTimerDuration of a
    session whose current exercise is a timer exercise is getTimerDuration
    of the duration of that exercise. *)
Theorem getTimerDuration_resolution :
  (forall n : Z, getTimerDuration (DurNumber n) = n)
  /\ (forall min max : Z,
        rounds_to (inject_Z (min + max) / 2)
                  (getTimerDuration (DurRange min max)))
  /\ (forall (min max r : Z),
        rounds_to (inject_Z (min + max) / 2) r ->
        getTimerDuration (DurRange min max) = r)
  /\ getTimerDuration (DurRange 40 60) = 50
  /\ getTimerDuration (DurRange 5 6) = 6
  /\ (forall (workout : Workout) (s : WorkoutState)
             (b : BaseExercise) (d : Duration),
        Session.getExercise workout s = Some (TimerExercise b d) ->
        Session.currentTimerDuration workout s = Some (getTimerDuration d))
  /\ (forall (workout : Workout) (s : WorkoutState)
             (b : BaseExercise) (r : RepCount),
        Session.getExercise workout s = Some (RepsExercise b r) ->
        Session.currentTimerDuration workout s = None).
Proof.
  assert (Hmid : forall min max : Z,
             rounds_to (inject_Z (min + max) / 2)
                       (getTimerDuration (DurRange min max))).
  { intros min max. apply Math_round_rounds_to. }
  split; [reflexivity|]. split; [exact Hmid|].
  split. { intros min max r Hr. eapply rounds_to_unique; [apply Hmid|exact Hr]. }
  split; [reflexivity|]. split; [reflexivity|].
  split; intros workout s b d H;
    unfold Session.currentTimerDuration, Session.currentExercise;
    rewrite H; reflexivity.
Qed.

(** The warm-up hang of the sample workout, a 40-60 second range. *)
Lemma getTimerDuration_resolution_witness :
  let w := Samples.pullup_workout in
  let s := Session.startWorkout Session.INITIAL_STATE in
  Session.getExercise w s
  = Some (TimerExercise (Samples.base "hang" 1 30) (DurRange 40 60))
  /\ Session.currentTimerDuration w s = Some 50
  /\ rounds_to (inject_Z (5 + 6) / 2) 6
  /\ getTimerDuration (DurRange 5 6) = 6.
Proof.
  intros w s.
  destruct getTimerDuration_resolution as (_ & Hmid & Huniq & _ & _ & Hcur & _).
  split; [reflexivity|].
  split; [exact (Hcur w s _ _ eq_refl)|].
  split; [exact (Hmid 5 6)|].
  apply Huniq. exact (Hmid 5 6).
Defined.

End WorkoutProps.

(** * Properties of the countdown timer *)

Module TimerProps.

Import Timer.

Section Facts.

Variable initialDuration : Z.

Lemma clearInterval_own (h : nat) : clearInterval h [h] = [].
Proof.
  unfold clearInterval. rewrite filter_cons, filter_nil.
  destruct (decide (h <> h)) as [Hne|_]; [contradiction|reflexivity].
Qed.

Lemma fire_own (h : nat) (t : Instance) :
  intervals t = [h] -> second initialDuration t = tick t.
Proof.
  intros Hl. unfold second. rewrite Hl. simpl. rewrite Hl.
  destruct (decide (h ∈ [h])) as [_|Hn]; [reflexivity|].
  exfalso. apply Hn. constructor.
Qed.

Lemma second_stopped (t : Instance) : intervals t = [] -> second initialDuration t = t.
Proof. intros Hl. unfold second. rewrite Hl. reflexivity. Qed.

Lemma elapse_stopped (n : nat) (t : Instance) :
  intervals t = [] -> elapse initialDuration n t = t.
Proof.
  induction n as [|n IH]; intros Hl; simpl; [reflexivity|].
  rewrite second_stopped by exact Hl. apply IH, Hl.
Qed.

Lemma elapse_succ (n : nat) (t : Instance) :
  elapse initialDuration (S n) t = second initialDuration (elapse initialDuration n t).
Proof.
  revert t. induction n as [|n IH]; intros t; [reflexivity|].
  change (elapse initialDuration (S (S n)) t) with (elapse initialDuration (S n) (second initialDuration t)).
  rewrite IH. reflexivity.
Qed.

(** A tick that does not finish the countdown. *)
Lemma second_counting (h : nat) (t : Instance) :
  intervals t = [h] -> 1 < timeRemaining t ->
  second initialDuration t
  = {| timeRemaining := timeRemaining t - 1; totalTime := totalTime t;
       status := status t; intervalRef := intervalRef t;
       intervals := intervals t; nextHandle := nextHandle t;
       completions := completions t |}.
Proof.
  intros Hl Hgt. rewrite (fire_own h) by exact Hl. unfold tick.
  destruct (Z.leb_spec (timeRemaining t) 1); [lia|reflexivity].
Qed.

(** The tick that finishes it. *)
Lemma second_finishing (h : nat) (t : Instance) :
  intervals t = [h] -> intervalRef t = Some h -> timeRemaining t <= 1 ->
  second initialDuration t
  = {| timeRemaining := 0; totalTime := totalTime t;
       status := finished; intervalRef := None;
       intervals := []; nextHandle := nextHandle t;
       completions := S (completions t) |}.
Proof.
  intros Hl Href Hle. rewrite (fire_own h) by exact Hl. unfold tick.
  destruct (Z.leb_spec (timeRemaining t) 1); [|lia].
  unfold clearIntervalSafe. rewrite Href. simpl.
  rewrite Hl, clearInterval_own. reflexivity.
Qed.

Lemma elapse_counting (h : nat) (k : nat) (t : Instance) :
  intervals t = [h] -> Z.of_nat k < timeRemaining t ->
  elapse initialDuration k t
  = {| timeRemaining := timeRemaining t - Z.of_nat k; totalTime := totalTime t;
       status := status t; intervalRef := intervalRef t;
       intervals := intervals t; nextHandle := nextHandle t;
       completions := completions t |}.
Proof.
  intros Hl. induction k as [|k IH]; intros Hlt.
  - simpl. rewrite Z.sub_0_r. destruct t; reflexivity.
  - rewrite elapse_succ, IH by lia.
    rewrite (second_counting h); [|exact Hl|simpl; lia].
    simpl. f_equal. lia.
Qed.

Lemma single_source_mount : single_source (mount initialDuration).
Proof. split; [reflexivity|discriminate]. Qed.

Lemma single_source_clear (t : Instance) :
  single_source t ->
  intervals (clearIntervalSafe t) = [] /\ intervalRef (clearIntervalSafe t) = None.
Proof.
  intros [Hl _]. unfold clearIntervalSafe.
  destruct (intervalRef t) as [h|] eqn:Href; simpl.
  - rewrite Hl, clearInterval_own. split; reflexivity.
  - rewrite Hl, Href. split; reflexivity.
Qed.

Lemma single_source_tick (t : Instance) :
  single_source t -> single_source (tick t).
Proof.
  intros Hs. unfold tick.
  destruct (timeRemaining t <=? 1).
  - destruct (single_source_clear t Hs) as [Hl Href].
    split; simpl; [rewrite Hl, Href; reflexivity|].
    rewrite Href. discriminate.
  - exact Hs.
Qed.

Lemma single_source_step (e : Event) (t : Instance) :
  single_source t -> single_source (step initialDuration e t).
Proof.
  intros Hs. destruct (single_source_clear t Hs) as [Hl Href].
  destruct e as [duration| | | |h]; simpl.
  - split; simpl; [rewrite Hl; f_equal|reflexivity].
  - split; simpl; [rewrite Hl, Href; reflexivity|].
    rewrite Href. discriminate.
  - unfold resume. destruct (decide (status t <> paused)) as [|Hp]; [exact Hs|].
    destruct (decide (status t = paused)) as [Hst|Hn]; [|contradiction].
    destruct Hs as [Hlive Hrun].
    destruct (intervalRef t) as [h|] eqn:Hr.
    + specialize (Hrun h eq_refl). congruence.
    + split; simpl; [rewrite Hlive; reflexivity|reflexivity].
  - split; simpl; [rewrite Hl, Href; reflexivity|].
    rewrite Href. discriminate.
  - destruct (decide (h ∈ intervals t)); [apply single_source_tick|]; exact Hs.
Qed.

Lemma single_source_reachable (t : Instance) :
  reachable initialDuration t -> single_source t.
Proof.
  intros Hr. induction Hr.
  - apply single_source_mount.
  - apply single_source_step. assumption.
Qed.

Lemma reachable_steps (es : list Event) (t : Instance) :
  Forall event_ok es ->
  reachable initialDuration t -> reachable initialDuration (steps initialDuration es t).
Proof.
  intros Hes. revert t. induction Hes as [|e es He Hes IH]; intros t Ht; simpl.
  - exact Ht.
  - apply IH. constructor; assumption.
Qed.

Lemma elapse_add (a b : nat) (t : Instance) :
  elapse initialDuration (a + b) t
  = elapse initialDuration b (elapse initialDuration a t).
Proof.
  revert t. induction a as [|a IH]; intros t; simpl; [reflexivity|apply IH].
Qed.

(** With the pause control used only on a running timer, a timer that is
    running, paused or idle has at least one second left. *)
Lemma time_left_ui (t : Instance) :
  1 <= initialDuration ->
  reachable_ui initialDuration t ->
  single_source t /\ (status t <> finished -> 1 <= timeRemaining t).
Proof.
  intros Hinit Hr. induction Hr as [|e t Hr [Hs Hpos] He Hp].
  - split; [apply single_source_mount|]. intros _. exact Hinit.
  - split; [apply single_source_step, Hs|].
    destruct e as [[d|]| | | |h]; simpl in *.
    + intros _. exact He.
    + intros _. exact Hinit.
    + intros _. unfold clearIntervalSafe.
      destruct (intervalRef t); simpl; apply Hpos;
        rewrite (Hp eq_refl); discriminate.
    + unfold resume. destruct (decide (status t <> paused)) as [|Hn]; [exact Hpos|].
      simpl. intros _. apply Hpos.
      destruct (decide (status t = paused)) as [Hst|]; [|contradiction].
      rewrite Hst. discriminate.
    + intros _. exact Hinit.
    + destruct (decide (h ∈ intervals t)) as [Hin|]; [|exact Hpos].
      unfold tick. destruct (Z.leb_spec (timeRemaining t) 1); simpl.
      * intros Hf. contradiction.
      * intros _. lia.
Qed.

End Facts.

(** C6. From any reachable state of the timer, start d with an integer d of
    at least 1 sets the countdown to d and runs it; after k seconds, k less
    than d, the time remaining is d minus k, one less per tick, the timer is
    still running and the callback has not run; once d seconds have elapsed,
    and for ever after, the time remaining is 0, the status is finished, no
    interval is left to tick and the callback has run exactly one time. *)
Theorem start_runs_to_completion (initialDuration d : Z) (t : Instance) :
  1 <= d ->
  reachable initialDuration t ->
  let t0 := start initialDuration (Some d) t in
  (timeRemaining t0 = d /\ totalTime t0 = d /\ status t0 = running
   /\ completions t0 = completions t)
  /\ (forall k : nat, Z.of_nat k < d ->
        timeRemaining (elapse initialDuration k t0) = d - Z.of_nat k
        /\ status (elapse initialDuration k t0) = running
        /\ completions (elapse initialDuration k t0) = completions t)
  /\ (forall n : nat, d <= Z.of_nat n ->
        timeRemaining (elapse initialDuration n t0) = 0
        /\ status (elapse initialDuration n t0) = finished
        /\ intervals (elapse initialDuration n t0) = []
        /\ completions (elapse initialDuration n t0) = S (completions t)).
Proof.
  intros Hd Hr t0.
  pose proof (single_source_reachable initialDuration t Hr) as Hs.
  destruct (single_source_clear t Hs) as [Hl Href].
  set (h := nextHandle (clearIntervalSafe t)).
  assert (Hlive : intervals t0 = [h]) by (subst t0 h; simpl; rewrite Hl; reflexivity).
  assert (Hcompl : completions (clearIntervalSafe t) = completions t).
  { unfold clearIntervalSafe. destruct (intervalRef t); reflexivity. }
  assert (Hcount : forall k : nat, Z.of_nat k < d ->
            elapse initialDuration k t0
            = {| timeRemaining := d - Z.of_nat k; totalTime := d;
                 status := running; intervalRef := Some h;
                 intervals := intervals t0; nextHandle := S h;
                 completions := completions t |}).
  { intros k Hk. rewrite (elapse_counting initialDuration h k t0 Hlive) by exact Hk.
    subst t0 h. simpl. rewrite Hcompl. reflexivity. }
  split; [subst t0; simpl; auto|].
  split.
  - intros k Hk. rewrite (Hcount k Hk). simpl. auto.
  - intros n Hn.
    set (m := Z.to_nat (d - 1)).
    replace n with (S m + (n - S m))%nat by lia.
    rewrite elapse_add, elapse_succ, (Hcount m) by lia.
    rewrite (second_finishing initialDuration h); simpl; [|exact Hlive|reflexivity|lia].
    rewrite elapse_stopped by reflexivity. simpl. auto.
Qed.

(** A freshly mounted 30-second timer started for 3 seconds. *)
Lemma start_runs_to_completion_witness :
  let t0 := start 30 (Some 3) (mount 30) in
  1 <= 3
  /\ timeRemaining (elapse 30 2 t0) = 1
  /\ status (elapse 30 2 t0) = running
  /\ timeRemaining (elapse 30 3 t0) = 0
  /\ status (elapse 30 3 t0) = finished
  /\ completions (elapse 30 5 t0) = 1%nat.
Proof.
  intros t0.
  destruct (start_runs_to_completion 30 3 (mount 30) ltac:(lia) (reachable_mount 30))
    as (_ & Hrun & Hdone).
  split; [lia|].
  destruct (Hrun 2%nat ltac:(lia)) as (H1 & H2 & _).
  destruct (Hdone 3%nat ltac:(lia)) as (H3 & H4 & _).
  destruct (Hdone 5%nat ltac:(lia)) as (_ & _ & _ & H5).
  repeat split; assumption.
Defined.

(** C5. pause does not look at the status. On a freshly mounted, idle timer
    and on a timer that has finished its countdown it sets the status to
    paused; the claim asks for both states to be left as they are. On a
    running timer it does what the claim says: the interval is cleared, the
    status is paused and the time remaining is kept. *)
Theorem pause_outside_running :
  let fresh := mount 30 in
  let done := steps 30 [Start (Some 1); Fire 0%nat] (mount 30) in
  let going := steps 30 [Start (Some 3); Fire 0%nat] (mount 30) in
  (status fresh = idle /\ status (pause fresh) = paused /\ pause fresh <> fresh)
  /\ (status done = finished /\ status (pause done) = paused /\ pause done <> done)
  /\ (status going = running /\ timeRemaining going = 2
      /\ status (pause going) = paused /\ timeRemaining (pause going) = 2
      /\ intervals (pause going) = []).
Proof. repeat split; discriminate. Qed.

(** C10. A running timer showing 0: a timer started for 1 second finishes
    after one tick; pause, which does not look at the status, then marks the
    finished timer as paused, and resume sets it running with 0 seconds
    remaining. Every duration involved is an integer of at least 1. *)
Theorem running_with_no_time_left :
  let es := [Start (Some 1); Fire 0%nat; Pause; Resume] in
  let t := steps 1 es (mount 1) in
  Forall event_ok es
  /\ reachable 1 t
  /\ status t = running
  /\ timeRemaining t = 0
  /\ completions (second 1 t) = 2%nat.
Proof.
  intros es t.
  assert (Hes : Forall event_ok es) by (repeat constructor; simpl; lia).
  split; [exact Hes|].
  split; [apply (reachable_steps 1 es _ Hes), reachable_mount|].
  repeat split.
Qed.

End TimerProps.

(** * Further properties of the session and of the runner screen *)

Module SessionMore.

Import Session Runner.

Lemma sum_acc {A : Type} (f : A -> Z) (l : list A) (a : Z) :
  foldl (fun s x => s + f x) a l = a + foldl (fun s x => s + f x) 0 l.
Proof.
  revert a. induction l as [|x l IH]; intros a; simpl.
  - lia.
  - rewrite IH, (IH (0 + f x)). lia.
Qed.

Lemma sum_app {A : Type} (f : A -> Z) (l1 l2 : list A) :
  foldl (fun s x => s + f x) 0 (l1 ++ l2)
  = foldl (fun s x => s + f x) 0 l1 + foldl (fun s x => s + f x) 0 l2.
Proof. rewrite foldl_app, sum_acc. reflexivity. Qed.

Lemma sum_at_least_length {A : Type} (f : A -> Z) (l : list A) :
  Forall (fun x => 1 <= f x) l ->
  Z.of_nat (length l) <= foldl (fun s x => s + f x) 0 l.
Proof.
  induction 1 as [|x l Hx Hl IH]; simpl; [lia|].
  rewrite sum_acc. lia.
Qed.

Lemma sum_split {A : Type} (f : A -> Z) (l : list A) (i : nat) (x : A) :
  l !! i = Some x ->
  foldl (fun s y => s + f y) 0 l
  = foldl (fun s y => s + f y) 0 (take i l) + f x
    + foldl (fun s y => s + f y) 0 (drop (S i) l).
Proof.
  intros Hi. rewrite <- (take_drop_middle l i x Hi) at 1.
  rewrite sum_app. simpl. rewrite (sum_acc f _ (0 + f x)). lia.
Qed.

Lemma well_formed_exercises (workout : Workout) (i : nat) (sec : WorkoutSection) :
  well_formed workout = true ->
  sections workout !! i = Some sec ->
  Forall (fun ex => 1 <= sets_of ex) (exercises sec).
Proof.
  intros Hwf Hsec. apply Forall_lookup_2. intros j ex Hj.
  eapply SessionProps.well_formed_section; eauto.
Qed.

Lemma well_formed_section_sets (workout : Workout) :
  well_formed workout = true ->
  Forall (fun sec => 1 <= section_sets sec) (sections workout).
Proof.
  intros Hwf. apply Forall_lookup_2. intros i sec Hsec.
  pose proof (sum_at_least_length sets_of _ (well_formed_exercises _ _ _ Hwf Hsec)).
  destruct (SessionProps.well_formed_section workout i sec Hwf Hsec) as [Hne _].
  unfold section_sets. lia.
Qed.

Lemma totalSets_sections (workout : Workout) :
  Selector.totalSets (Selector.getWorkoutStats workout)
  = foldl (fun sum section => sum + section_sets section) 0 (sections workout).
Proof. reflexivity. Qed.

(** What one call of completeSet does to the count of completed sets, at a
    cursor that designates an exercise: either it enters the rest phase at a
    position with one more set done, still short of the total, or it
    completes the workout, and then all sets but the current one were done. *)
Lemma completeSet_counts (workout : Workout) (s : WorkoutState) :
  well_formed workout = true ->
  cursor_ok workout s ->
  let total := Selector.totalSets (Selector.getWorkoutStats workout) in
  let s' := completeSet workout s in
  (phase s' = RESTING /\ cursor_ok workout s'
   /\ setsDone workout s' = setsDone workout s + 1
   /\ setsDone workout s + 1 < total)
  \/ (phase s' = COMPLETED /\ setsDone workout s + 1 = total).
Proof.
  intros Hwf Hok total s'.
  pose proof (SessionProps.cursor_ok_completeSet workout s Hwf Hok) as Hok'.
  destruct Hok as (sec & ex & Hsec & Hex & Hset).
  pose proof (lookup_lt_Some _ _ _ Hsec) as Hi.
  pose proof (lookup_lt_Some _ _ _ Hex) as Hj.
  pose proof (sum_split section_sets _ _ _ Hsec) as Htot.
  pose proof (sum_split sets_of _ _ _ Hex) as Hsecsum.
  fold (section_sets sec) in Hsecsum.
  pose proof (sum_at_least_length section_sets (drop (S (sectionIndex s)) (sections workout))
                (Forall_drop _ _ _ (well_formed_section_sets workout Hwf))) as Hrest.
  pose proof (sum_at_least_length sets_of (drop (S (exerciseIndex s)) (exercises sec))
                (Forall_drop _ _ _ (well_formed_exercises workout _ _ Hwf Hsec))) as Hrestex.
  rewrite length_drop in Hrest. rewrite length_drop in Hrestex.
  subst total. rewrite totalSets_sections, Htot.
  fold s' in Hok'. revert Hok'. subst s'.
  assert (Hd : setsDone workout s
               = foldl (fun sum section => sum + section_sets section) 0
                       (take (sectionIndex s) (sections workout))
                 + foldl (fun a ex => a + sets_of ex) 0
                         (take (exerciseIndex s) (exercises sec))
                 + (currentSet s - 1))
    by (unfold setsDone; rewrite Hsec; reflexivity).
  rewrite Hd. clear Hd.
  unfold completeSet. rewrite Hsec, Hex. cbv zeta.
  unfold sets_of in *.
  destruct (Z.ltb_spec (currentSet s) (sets ex)).
  { intros Hok'. left. split; [reflexivity|]. split; [exact Hok'|].
    unfold setsDone, sets_of. simpl. rewrite Hsec. lia. }
  destruct (Z.ltb_spec (Z.of_nat (exerciseIndex s))
                       (Z.of_nat (length (exercises sec)) - 1)).
  { intros Hok'. left. split; [reflexivity|]. split; [exact Hok'|].
    unfold setsDone, sets_of. simpl. rewrite Hsec.
    replace (exerciseIndex s + 1)%nat with (S (exerciseIndex s)) by lia.
    rewrite (take_S_r _ _ _ Hex), sum_app. simpl. lia. }
  destruct (Z.ltb_spec (Z.of_nat (sectionIndex s))
                       (Z.of_nat (length (sections workout)) - 1)).
  { intros Hok'. left. split; [reflexivity|]. split; [exact Hok'|].
    unfold setsDone, sets_of. simpl.
    replace (sectionIndex s + 1)%nat with (S (sectionIndex s)) by lia.
    rewrite (take_S_r _ _ _ Hsec), sum_app. simpl.
    assert (Hnone : drop (S (exerciseIndex s)) (exercises sec) = [])
      by (apply drop_ge; lia).
    rewrite Hnone in Hsecsum. simpl in Hsecsum.
    destruct (sections workout !! S (sectionIndex s)); simpl; lia. }
  intros _. right. split; [reflexivity|].
  assert (Hnone : drop (S (exerciseIndex s)) (exercises sec) = [])
    by (apply drop_ge; lia).
  assert (Hnone' : drop (S (sectionIndex s)) (sections workout) = [])
    by (apply drop_ge; lia).
  rewrite Hnone in Hsecsum. rewrite Hnone'. simpl in *. lia.
Qed.

Lemma setsDone_afterRest (workout : Workout) (s : WorkoutState) :
  setsDone workout (afterRest s) = setsDone workout s.
Proof. unfold afterRest. destruct (decide _); reflexivity. Qed.

Lemma cursor_ok_afterRest (workout : Workout) (s : WorkoutState) :
  cursor_ok workout s -> cursor_ok workout (afterRest s).
Proof. intros H. unfold afterRest. destruct (decide _); exact H. Qed.

Lemma rounds_count (workout : Workout) (k : nat) :
  well_formed workout = true ->
  Z.of_nat k < Selector.totalSets (Selector.getWorkoutStats workout) ->
  let s := Nat.iter k (round workout) (startWorkout INITIAL_STATE) in
  cursor_ok workout s /\ phase s = EXERCISING /\ setsDone workout s = Z.of_nat k.
Proof.
  intros Hwf. induction k as [|k IH]; intros Hk.
  - simpl. split; [|split; [reflexivity|]].
    + apply (SessionProps.cursor_ok_initial workout Hwf).
    + unfold setsDone. simpl. destruct (sections workout !! 0%nat); reflexivity.
  - destruct IH as (Hok & Hph & Hdone); [lia|].
    cbv zeta. rewrite Nat.iter_succ.
    set (s := Nat.iter k (round workout) (startWorkout INITIAL_STATE)) in *.
    destruct (completeSet_counts workout s Hwf Hok)
      as [(Hrest & Hok' & Hstep & _) | (_ & Hall)]; [|lia].
    unfold round. split; [apply cursor_ok_afterRest, Hok'|]. split.
    + unfold afterRest. destruct (decide _) as [Hn|_]; [contradiction|reflexivity].
    + rewrite setsDone_afterRest, Hstep, Hdone. lia.
Qed.

(** X1. In a well-formed workout that is started and then driven round by
    round (a set completed, the rest ended), the session is exercising
    before each of the first totalSets calls of completeSet; each of these
    calls but the last enters the rest phase, and the last one, the
    totalSets-th, completes the workout. *)
Theorem workout_completes_after_all_sets (workout : Workout) (k : nat) :
  well_formed workout = true ->
  Z.of_nat k < Selector.totalSets (Selector.getWorkoutStats workout) ->
  let total := Selector.totalSets (Selector.getWorkoutStats workout) in
  let s := Nat.iter k (round workout) (startWorkout INITIAL_STATE) in
  phase s = EXERCISING
  /\ (Z.of_nat k + 1 < total -> phase (completeSet workout s) = RESTING)
  /\ (Z.of_nat k + 1 = total -> phase (completeSet workout s) = COMPLETED).
Proof.
  intros Hwf Hk total s. subst total.
  destruct (rounds_count workout k Hwf Hk) as (Hok & Hph & Hdone).
  fold s in Hok, Hph, Hdone. split; [exact Hph|].
  destruct (completeSet_counts workout s Hwf Hok)
    as [(Hrest & _ & _ & Hlt) | (Hcompl & Hall)].
  - split; [intros _; exact Hrest|]. intros Heq. lia.
  - split; [|intros _; exact Hcompl]. intros Hlt. lia.
Qed.

(** The sample workout has 1 + 2 + 2 = 5 sets: the fifth call completes it. *)
Lemma workout_completes_after_all_sets_witness :
  let w := Samples.pullup_workout in
  well_formed w = true
  /\ Selector.totalSets (Selector.getWorkoutStats w) = 5
  /\ phase (Nat.iter 4 (round w) (startWorkout INITIAL_STATE)) = EXERCISING
  /\ phase (completeSet w (Nat.iter 4 (round w) (startWorkout INITIAL_STATE)))
     = COMPLETED
  /\ phase (completeSet w (Nat.iter 3 (round w) (startWorkout INITIAL_STATE)))
     = RESTING.
Proof.
  intros w. split; [reflexivity|]. split; [reflexivity|].
  destruct (workout_completes_after_all_sets w 4 eq_refl ltac:(vm_compute; reflexivity))
    as (H1 & _ & H2).
  destruct (workout_completes_after_all_sets w 3 eq_refl ltac:(vm_compute; reflexivity))
    as (_ & H3 & _).
  split; [exact H1|]. split; [apply H2; reflexivity|apply H3; vm_compute; reflexivity].
Defined.

Lemma count_exercises_app (l1 l2 : list WorkoutSection) :
  count_exercises (l1 ++ l2) = (count_exercises l1 + count_exercises l2)%nat.
Proof.
  unfold count_exercises at 1. rewrite foldl_app.
  rewrite SessionProps.count_exercises_acc. reflexivity.
Qed.

(** X2. In every reachable state of a well-formed workout the progress
    counter completedExercises is below totalExercises; a call of
    completeSet never lowers it, and afterRest and startWorkout leave it as
    it is. *)
Theorem completedExercises_monotone (workout : Workout) (s : WorkoutState) :
  well_formed workout = true ->
  reachable workout s ->
  (completedExercises workout s < totalExercises workout)%nat
  /\ (completedExercises workout s
      <= completedExercises workout (completeSet workout s))%nat
  /\ completedExercises workout (afterRest s) = completedExercises workout s
  /\ completedExercises workout (startWorkout s) = completedExercises workout s.
Proof.
  intros Hwf Hr.
  destruct (SessionProps.cursor_ok_reachable workout s Hwf Hr)
    as (sec & ex & Hsec & Hex & Hset).
  pose proof (lookup_lt_Some _ _ _ Hex) as Hj.
  split; [|split; [|split]].
  - unfold completedExercises, totalExercises.
    rewrite <- (take_drop_middle _ _ _ Hsec) at 2.
    rewrite count_exercises_app. unfold count_exercises at 3. simpl.
    rewrite SessionProps.count_exercises_acc. lia.
  - unfold completeSet. rewrite Hsec, Hex. cbv zeta.
    destruct (currentSet s <? sets ex); [reflexivity|].
    destruct (Z.of_nat (exerciseIndex s) <? Z.of_nat (length (exercises sec)) - 1);
      [unfold completedExercises; simpl; lia|].
    destruct (Z.of_nat (sectionIndex s) <? Z.of_nat (length (sections workout)) - 1);
      [|reflexivity].
    unfold completedExercises. simpl.
    replace (sectionIndex s + 1)%nat with (S (sectionIndex s)) by lia.
    rewrite (take_S_r _ _ _ Hsec), SessionProps.count_exercises_snoc. lia.
  - unfold afterRest. destruct (decide _); reflexivity.
  - reflexivity.
Qed.

Lemma completedExercises_monotone_witness :
  let w := Samples.pullup_workout in
  let s := run w [StartWorkout; CompleteSet; AfterRest] INITIAL_STATE in
  well_formed w = true
  /\ completedExercises w s = 1%nat
  /\ totalExercises w = 3%nat
  /\ (completedExercises w s <= completedExercises w (completeSet w s))%nat.
Proof.
  intros w s.
  destruct (completedExercises_monotone w s eq_refl
              (SessionProps.reachable_run w _ _ (reachable_init w)))
    as (_ & Hmono & _).
  split; [reflexivity|]. split; [reflexivity|]. split; [reflexivity|exact Hmono].
Defined.

(** X3. Once a session has reached the completed phase, completeSet and
    afterRest leave its state unchanged, for every workout: a timer or a
    button of an earlier screen firing late cannot move a completed session. *)
Theorem completed_is_final (workout : Workout) (s : WorkoutState) :
  reachable workout s ->
  phase s = COMPLETED ->
  completeSet workout s = s /\ afterRest s = s.
Proof.
  intros Hr Hph. split.
  - revert Hph. induction Hr as [|c s Hr IH]; [discriminate|].
    destruct c; simpl.
    + discriminate.
    + assert (Hcs : completeSet workout s = completeSet workout s) by reflexivity.
      unfold completeSet at 2 in Hcs.
      destruct (sections workout !! sectionIndex s) as [sec|] eqn:Hsec;
        [|rewrite Hcs; exact IH].
      destruct (exercises sec !! exerciseIndex s) as [ex|] eqn:Hex;
        [|rewrite Hcs; exact IH].
      cbv zeta in Hcs.
      destruct (currentSet s <? sets ex) eqn:H1; [rewrite Hcs; discriminate|].
      destruct (Z.of_nat (exerciseIndex s) <? Z.of_nat (length (exercises sec)) - 1)
        eqn:H2; [rewrite Hcs; discriminate|].
      destruct (Z.of_nat (sectionIndex s) <? Z.of_nat (length (sections workout)) - 1)
        eqn:H3; [rewrite Hcs; discriminate|].
      intros _. rewrite Hcs. unfold completeSet. simpl. rewrite Hsec, Hex. cbv zeta.
      rewrite H1, H2, H3. reflexivity.
    + unfold afterRest. destruct (decide (phase s <> RESTING)); [exact IH|discriminate].
    + discriminate.
  - unfold afterRest. destruct (decide _) as [|Hn]; [reflexivity|].
    exfalso. apply Hn. rewrite Hph. discriminate.
Qed.

Lemma completed_is_final_witness :
  let w := Samples.plank_workout in
  let s := run w [StartWorkout; CompleteSet; AfterRest; CompleteSet] INITIAL_STATE in
  phase s = COMPLETED /\ completeSet w s = s /\ afterRest s = s.
Proof.
  intros w s. split; [reflexivity|].
  apply (completed_is_final w s
           (SessionProps.reachable_run w _ _ (reachable_init w)) eq_refl).
Defined.

End SessionMore.

Module RunnerProps.

Import Session Runner.

(** X4. In every reachable state of a well-formed workout the main area of
    the runner shows exactly one screen, chosen by the phase: the ready
    screen when idle, while exercising the timer of a timer exercise or the
    repetition screen of a repetition exercise (never the bare header), the
    rest screen when resting, announcing a set number between 1 and the
    number of sets of the coming exercise, and the completion screen at the
    end. *)
Theorem mainContent_one_screen (workout : Workout) (s : WorkoutState) :
  well_formed workout = true ->
  reachable workout s ->
  exists ex : Exercise,
    currentExercise workout s = Some ex
    /\ 1 <= currentSet s <= sets ex
    /\ mainContent workout s
       = [match phase s with
          | IDLE => ReadyScreen (Some ex) (currentSectionName workout s)
          | EXERCISING =>
            match ex with
            | TimerExercise _ duration => TimerExerciseUI (getTimerDuration duration)
            | RepsExercise _ _ => RepsExerciseUI ex
            end
          | RESTING => RestPeriodUI (restDuration s) (Some ex) (currentSet s) (sets ex)
          | COMPLETED => CompletionScreen
          end].
Proof.
  intros Hwf Hr.
  destruct (SessionProps.cursor_ok_reachable workout s Hwf Hr)
    as (sec & ex & Hsec & Hex & Hset).
  assert (Hcur : currentExercise workout s = Some ex).
  { unfold currentExercise, getExercise. rewrite Hsec. exact Hex. }
  exists ex. split; [exact Hcur|]. split; [exact Hset|].
  unfold mainContent, currentTimerDuration. rewrite Hcur.
  destruct (phase s); simpl; [reflexivity| |reflexivity|reflexivity].
  destruct ex; reflexivity.
Qed.

Lemma mainContent_one_screen_witness :
  let w := Samples.pullup_workout in
  let s := run w [StartWorkout; CompleteSet] INITIAL_STATE in
  well_formed w = true
  /\ mainContent w s
     = [RestPeriodUI 30 (Some (RepsExercise (Samples.base "pullups" 2 90)
                                            (RepRange 6 8))) 1 2].
Proof.
  intros w s. split; [reflexivity|].
  destruct (mainContent_one_screen w s eq_refl
              (SessionProps.reachable_run w _ _ (reachable_init w)))
    as (ex & Hcur & _ & Hmain).
  injection Hcur as <-. exact Hmain.
Defined.

(** X5. For every workout and every state the main area of the runner
    shows at most one screen, and it is blank exactly when the session is
    exercising with a cursor that designates no exercise, as after
    startWorkout on a workout without sections. *)
Theorem mainContent_blank (workout : Workout) (s : WorkoutState) :
  (length (mainContent workout s) <= 1)%nat
  /\ (mainContent workout s = []
      <-> phase s = EXERCISING /\ getExercise workout s = None).
Proof.
  unfold mainContent, currentExercise.
  destruct (phase s); simpl.
  - split; [lia|]. split; [discriminate|intros [H _]; discriminate].
  - destruct (getExercise workout s) as [ex|]; simpl.
    + split; [lia|]. split; [discriminate|intros [_ H]; discriminate].
    + split; [lia|]. split; [intros _; split; reflexivity|reflexivity].
  - split; [lia|]. split; [discriminate|intros [H _]; discriminate].
  - split; [lia|]. split; [discriminate|intros [H _]; discriminate].
Qed.

Lemma mainContent_blank_witness :
  let w := {| workout_id := "empty"; workout_name := "Empty";
              workout_description := None; sections := [] |} in
  mainContent w (startWorkout INITIAL_STATE) = []
  /\ completeSet w (startWorkout INITIAL_STATE) = startWorkout INITIAL_STATE.
Proof.
  intros w. split; [|reflexivity].
  apply (mainContent_blank w (startWorkout INITIAL_STATE)).
  split; reflexivity.
Defined.

Lemma map_constant {A B : Type} (f : A -> B) (c : B) (l : list A) :
  Forall (fun x => f x = c) l -> map f l = replicate (length l) c.
Proof. induction 1 as [|x l Hx _ IH]; simpl; [reflexivity|]. rewrite Hx, IH. reflexivity. Qed.

(** X6. The set counter of the exercise header, for a current set between
    1 and the number of sets: the bars of the sets before the current one
    are marked completed, then comes the one bar of the current set, then
    the bars of the sets still to come; one bar per set in all. *)
Theorem setBars_layout (exercise : Exercise) (currentSet : Z) :
  1 <= currentSet <= sets exercise ->
  setBars exercise currentSet
  = replicate (Z.to_nat (currentSet - 1)) CompletedSet
    ++ [CurrentSetBar]
    ++ replicate (Z.to_nat (sets exercise - currentSet)) UpcomingSet.
Proof.
  intros Hcs. unfold setBars.
  set (a := Z.to_nat (currentSet - 1)). set (b := Z.to_nat (sets exercise - currentSet)).
  replace (Z.to_nat (sets exercise)) with (a + (1 + b))%nat by lia.
  rewrite !seq_app, !map_app. simpl seq. f_equal; [|f_equal].
  - rewrite (map_constant _ CompletedSet); [rewrite length_seq; reflexivity|].
    apply Forall_seq. intros i Hi.
    destruct (Z.ltb_spec (Z.of_nat i) (currentSet - 1)); [reflexivity|lia].
  - simpl. destruct (Z.ltb_spec (Z.of_nat a) (currentSet - 1)); [lia|].
    destruct (Z.eqb_spec (Z.of_nat a) (currentSet - 1)); [reflexivity|lia].
  - rewrite (map_constant _ UpcomingSet); [rewrite length_seq; reflexivity|].
    apply Forall_seq. intros i Hi.
    destruct (Z.ltb_spec (Z.of_nat i) (currentSet - 1)); [lia|].
    destruct (Z.eqb_spec (Z.of_nat i) (currentSet - 1)); [lia|reflexivity].
Qed.

Lemma setBars_layout_witness :
  1 <= 2 <= 3
  /\ setBars (RepsExercise (Samples.base "rows" 3 60) (RepNumber 8)) 2
     = [CompletedSet; CurrentSetBar; UpcomingSet].
Proof.
  split; [lia|].
  apply (setBars_layout (RepsExercise (Samples.base "rows" 3 60) (RepNumber 8)) 2).
  simpl. lia.
Defined.

Lemma count_at_least_length (secs : list WorkoutSection) :
  Forall (fun sec => (1 <= length (exercises sec))%nat) secs ->
  (length secs <= count_exercises secs)%nat.
Proof.
  induction 1 as [|sec secs Hsec _ IH]; [simpl; lia|].
  unfold count_exercises. simpl. rewrite SessionProps.count_exercises_acc.
  simpl. lia.
Qed.

Lemma count_at_most_sets (secs : list WorkoutSection) :
  Forall (fun sec => Z.of_nat (length (exercises sec)) <= section_sets sec) secs ->
  Z.of_nat (count_exercises secs)
  <= foldl (fun sum section => sum + section_sets section) 0 secs.
Proof.
  induction 1 as [|sec secs Hsec _ IH]; [unfold count_exercises; simpl; lia|].
  unfold count_exercises. simpl.
  rewrite SessionProps.count_exercises_acc, SessionMore.sum_acc. simpl. lia.
Qed.

(** X7. The statistics of a well-formed workout: there is at least one
    section, at least as many exercises as sections and at least as many
    sets as exercises; there is one section name per section, and the
    number of exercises is the one the session reports as totalExercises. *)
Theorem getWorkoutStats_ordered (workout : Workout) :
  well_formed workout = true ->
  let stats := Selector.getWorkoutStats workout in
  (1 <= length (sections workout) <= Selector.totalExercises stats)%nat
  /\ Z.of_nat (Selector.totalExercises stats) <= Selector.totalSets stats
  /\ length (Selector.sectionNames stats) = length (sections workout)
  /\ Selector.totalExercises stats = totalExercises workout.
Proof.
  intros Hwf stats. subst stats.
  pose proof (SessionProps.well_formed_sections workout Hwf) as Hne.
  split; [split; [lia|]|split; [|split; [apply length_map|reflexivity]]].
  - apply count_at_least_length, Forall_lookup_2. intros i sec Hsec.
    destruct (SessionProps.well_formed_section workout i sec Hwf Hsec) as [Hlen _]. lia.
  - rewrite SessionMore.totalSets_sections.
    apply count_at_most_sets, Forall_lookup_2. intros i sec Hsec.
    apply SessionMore.sum_at_least_length.
    apply (SessionMore.well_formed_exercises workout i sec Hwf Hsec).
Qed.

Lemma getWorkoutStats_ordered_witness :
  let stats := Selector.getWorkoutStats Samples.pullup_workout in
  well_formed Samples.pullup_workout = true
  /\ Selector.totalExercises stats = 3%nat
  /\ Selector.totalSets stats = 5
  /\ Z.of_nat (Selector.totalExercises stats) <= Selector.totalSets stats.
Proof.
  intros stats.
  destruct (getWorkoutStats_ordered Samples.pullup_workout eq_refl) as (_ & H & _).
  split; [reflexivity|]. split; [reflexivity|]. split; [reflexivity|exact H].
Defined.

End RunnerProps.

(** * Further properties of the countdown timer *)

Module TimerMore.

Import Timer.

Section Facts.

Variable initialDuration : Z.

#[local] Abbreviation reachable := (reachable initialDuration).
#[local] Abbreviation elapse := (elapse initialDuration).
#[local] Abbreviation second := (second initialDuration).

(** Once the seconds elapsed reach the time remaining, a ticking timer is
    finished, whatever it started from. *)
Lemma elapse_finishing (h : nat) (n : nat) (t : Instance) :
  intervals t = [h] -> intervalRef t = Some h ->
  (1 <= n)%nat -> timeRemaining t <= Z.of_nat n ->
  elapse n t
  = {| timeRemaining := 0; totalTime := totalTime t;
       status := finished; intervalRef := None;
       intervals := []; nextHandle := nextHandle t;
       completions := S (completions t) |}.
Proof.
  intros Hl Href Hn Hle.
  destruct (Z.le_gt_cases (timeRemaining t) 1) as [Hlast|Hmore].
  - destruct n as [|n]; [lia|]. simpl.
    rewrite (TimerProps.second_finishing initialDuration h t Hl Href Hlast).
    apply TimerProps.elapse_stopped. reflexivity.
  - set (m := Z.to_nat (timeRemaining t - 1)).
    replace n with (S m + (n - S m))%nat by lia.
    rewrite TimerProps.elapse_add, TimerProps.elapse_succ.
    rewrite (TimerProps.elapse_counting initialDuration h m t Hl) by lia.
    rewrite (TimerProps.second_finishing initialDuration h);
      simpl; [|exact Hl|exact Href|lia].
    apply TimerProps.elapse_stopped. reflexivity.
Qed.


Lemma clear_keeps (t : Instance) :
  timeRemaining (clearIntervalSafe t) = timeRemaining t
  /\ totalTime (clearIntervalSafe t) = totalTime t
  /\ status (clearIntervalSafe t) = status t
  /\ completions (clearIntervalSafe t) = completions t.
Proof. unfold clearIntervalSafe. destruct (intervalRef t); repeat split. Qed.


(** The time remaining stays between 0 and the total time, which is at
    least 1. *)
Lemma time_bounds (t : Instance) :
  1 <= initialDuration -> reachable t ->
  0 <= timeRemaining t <= totalTime t /\ 1 <= totalTime t.
Proof.
  intros Hinit Hr. induction Hr as [|e t Hr IH He]; [simpl; lia|].
  destruct (clear_keeps t) as (Htr & Htot & _).
  destruct e as [[d|]| | | |h]; simpl in *; try lia.
  - unfold resume. destruct (decide _); simpl; lia.
  - destruct (decide (h ∈ intervals t)); [|lia].
    unfold tick. destruct (Z.leb_spec (timeRemaining t) 1); simpl; lia.
Qed.

End Facts.

(** X8. With an initial duration of at least 1 and start called with
    durations of at least 1, in every reachable state of the timer, whatever
    the order of the calls and ticks, the time remaining is between 0 and
    the total time, and the total time is at least 1. *)
Theorem timeRemaining_bounds (initialDuration : Z) (t : Instance) :
  1 <= initialDuration ->
  reachable initialDuration t ->
  0 <= timeRemaining t <= totalTime t /\ 1 <= totalTime t.
Proof. apply time_bounds. Qed.

Lemma timeRemaining_bounds_witness :
  let t := steps 30 [Start (Some 3); Fire 0%nat; Pause; Resume; Fire 1%nat] (mount 30) in
  1 <= 30 /\ timeRemaining t = 1 /\ totalTime t = 3
  /\ 0 <= timeRemaining t <= totalTime t.
Proof.
  intros t.
  assert (Hr : reachable 30 t).
  { apply (TimerProps.reachable_steps 30); [|apply reachable_mount].
    repeat constructor; simpl; lia. }
  destruct (timeRemaining_bounds 30 t ltac:(lia) Hr) as [H _].
  split; [lia|]. split; [reflexivity|]. split; [reflexivity|exact H].
Defined.









(** X13. A countdown started with a duration of 1 or less, zero and
    negative durations included (a rest of 0 seconds starts one), is
    finished by its first tick: from the first second on the time remaining
    is 0, not below, the status is finished and the callback has run exactly
    one time. *)
Theorem start_short_duration
    (initialDuration : Z) (duration : option Z) (t : Instance) (n : nat) :
  reachable initialDuration t ->
  default initialDuration duration <= 1 ->
  (1 <= n)%nat ->
  let t0 := start initialDuration duration t in
  timeRemaining t0 = default initialDuration duration
  /\ status t0 = running
  /\ timeRemaining (elapse initialDuration n t0) = 0
  /\ status (elapse initialDuration n t0) = finished
  /\ completions (elapse initialDuration n t0) = S (completions t).
Proof.
  intros Hr Hd Hn t0.
  pose proof (TimerProps.single_source_reachable initialDuration t Hr) as Hs.
  destruct (TimerProps.single_source_clear t Hs) as [Hl _].
  destruct (clear_keeps t) as (_ & _ & _ & Hcompl).
  split; [reflexivity|]. split; [reflexivity|].
  rewrite (elapse_finishing initialDuration (nextHandle (clearIntervalSafe t)) n t0);
    subst t0; simpl; try reflexivity; try lia.
  - rewrite Hcompl. repeat split.
  - rewrite Hl. reflexivity.
Qed.

Lemma start_short_duration_witness :
  let t0 := start 0 None (mount 0) in
  timeRemaining t0 = 0
  /\ status t0 = running
  /\ status (elapse 0 1 t0) = finished
  /\ completions (elapse 0 4 t0) = 1%nat.
Proof.
  intros t0.
  destruct (start_short_duration 0 None (mount 0) 1 (reachable_mount 0)
              ltac:(simpl; lia) ltac:(lia)) as (H1 & H2 & _ & H3 & _).
  destruct (start_short_duration 0 None (mount 0) 4 (reachable_mount 0)
              ltac:(simpl; lia) ltac:(lia)) as (_ & _ & _ & _ & H4).
  repeat split; assumption.
Defined.



(** X15. With durations of at least 1, the derived progress of every
    reachable timer state lies between 0 and 1; it is 0 when the time
    remaining equals the total time, as right after start, and 1 when the
    time remaining is 0. *)
Theorem progress_bounds (initialDuration : Z) (t : Instance) :
  1 <= initialDuration ->
  reachable initialDuration t ->
  (0 <= progress t /\ progress t <= 1)%Q
  /\ (timeRemaining t = totalTime t -> (progress t == 0)%Q)
  /\ (timeRemaining t = 0 -> (progress t == 1)%Q).
Proof.
  intros Hinit Hr.
  destruct (time_bounds initialDuration t Hinit Hr) as [[Hlo Hhi] Htot].
  unfold progress. destruct (Z.ltb_spec 0 (totalTime t)) as [Hpos|]; [|lia].
  assert (Hq : (0 < inject_Z (totalTime t))%Q)
    by (change 0%Q with (inject_Z 0); rewrite <- Zlt_Qlt; exact Hpos).
  assert (Ha : (0 <= inject_Z (totalTime t - timeRemaining t))%Q)
    by (change 0%Q with (inject_Z 0); rewrite <- Zle_Qle; lia).
  assert (Hb : (inject_Z (totalTime t - timeRemaining t) <= inject_Z (totalTime t))%Q)
    by (rewrite <- Zle_Qle; lia).
  split; [split|split].
  - apply Qle_shift_div_l; [exact Hq|]. lra.
  - apply Qle_shift_div_r; [exact Hq|]. lra.
  - intros Heq. rewrite Heq, Z.sub_diag. unfold Qdiv. apply Qmult_0_l.
  - intros Hz. rewrite Hz, Z.sub_0_r. apply Qmult_inv_r. lra.
Qed.

Lemma progress_bounds_witness :
  let t := steps 30 [Start (Some 4); Fire 0%nat] (mount 30) in
  1 <= 30
  /\ (progress t == 1 # 4)%Q
  /\ (0 <= progress t /\ progress t <= 1)%Q.
Proof.
  intros t.
  assert (Hr : reachable 30 t).
  { apply (TimerProps.reachable_steps 30); [|apply reachable_mount].
    repeat constructor; simpl; lia. }
  destruct (progress_bounds 30 t ltac:(lia) Hr) as (H & _).
  split; [lia|]. split; [reflexivity|exact H].
Defined.

End TimerMore.

(** * Properties of the screen routing *)

Module AppProps.

Import App.

Lemma handle_keeps_selection (workouts : list Workout) (h : Handler) (view : AppView) :
  (forall w : Workout, shown view = Some w -> w ∈ workouts) ->
  forall w : Workout, shown (handle workouts h view) = Some w -> w ∈ workouts.
Proof.
  intros Hinv w. destruct view as [|w0|w0], h as [i| | |]; simpl; try apply Hinv.
  - destruct (workouts !! i) as [wi|] eqn:Hi; simpl; [|discriminate].
    intros [= <-]. eapply list_elem_of_lookup_2, Hi.
  - discriminate.
Qed.

(** X16. Whatever the user taps, starting from the selector: the workout
    of the plan or runner on screen is one of the list handed to the
    selector; the runner is entered from the plan of the same workout, and
    leaving the runner and starting again comes back to the runner of that
    workout; a start request that arrives while the selector or the runner
    is shown changes nothing. *)
Theorem navigation_keeps_selection (workouts : list Workout) (hs : list Handler) :
  let view := navigate workouts hs selector in
  (forall w : Workout, shown view = Some w -> w ∈ workouts)
  /\ (forall w : Workout, view = plan w ->
        handle workouts onStart view = runner w)
  /\ (forall w : Workout, view = runner w ->
        handle workouts onExit view = plan w
        /\ navigate workouts [onExit; onStart] view = view)
  /\ ((forall w : Workout, view <> plan w) -> showRunner view = view).
Proof.
  intros view. split; [|split; [|split]].
  - subst view. unfold navigate.
    assert (Hgen : forall v : AppView,
               (forall w : Workout, shown v = Some w -> w ∈ workouts) ->
               forall w : Workout,
                 shown (foldl (fun v h => handle workouts h v) v hs) = Some w ->
                 w ∈ workouts).
    { induction hs as [|h hs IH]; intros v Hv; simpl; [exact Hv|].
      apply IH. apply handle_keeps_selection, Hv. }
    apply Hgen. discriminate.
  - intros w ->. reflexivity.
  - intros w ->. split; reflexivity.
  - intros Hn. destruct view as [|w|w]; try reflexivity.
    exfalso. apply (Hn w). reflexivity.
Qed.

Lemma navigation_keeps_selection_witness :
  let ws := [Samples.plank_workout; Samples.pullup_workout] in
  let view := navigate ws [onSelect 1%nat; onStart; onExit; onBack;
                           onSelect 0%nat; onStart] selector in
  view = runner Samples.plank_workout
  /\ Samples.plank_workout ∈ ws
  /\ navigate ws [onExit; onStart] view = view.
Proof.
  intros ws view.
  destruct (navigation_keeps_selection ws
              [onSelect 1%nat; onStart; onExit; onBack; onSelect 0%nat; onStart])
    as (Hin & _ & Hback & _).
  split; [reflexivity|].
  split; [apply Hin; reflexivity|].
  apply (Hback Samples.plank_workout). reflexivity.
Defined.

End AppProps.
